(** * pam_totp: the PAM conversation bridge (src/pam_bridge/pam_bridge.c)

    A shallow embedding of [pam_msg] and of its three wrappers
    [pam_totp_prompt], [pam_totp_info] and [pam_totp_error], over an explicit
    heap of allocated blocks and a trace of the calls the bridge makes
    (the conversation callback, [memset], [free]). *)

From Stdlib Require Import ZArith List Lia.
From Stdlib Require Import Strings.Byte Strings.String.
From stdpp Require Import base option list gmap.

Local Open Scope Z_scope.

(** ** The host framework's interface, <security/pam_appl.h>

    The header is not part of the repository.  Its numeric constants differ
    between PAM implementations, so they are a parameter of the
    development; [linux_pam] below is one instance. *)

Class PamAppl : Type := {
  PAM_SUCCESS : Z;
  PAM_AUTH_ERR : Z;
  PAM_USER_UNKNOWN : Z;
  PAM_CONV_ERR : Z;
  PAM_IGNORE : Z;
  PAM_PROMPT_ECHO_ON : Z;
  PAM_ERROR_MSG : Z;
  PAM_TEXT_INFO : Z
}.

(** Linux-PAM, <security/_pam_types.h>. *)
Definition linux_pam : PamAppl := {|
  PAM_SUCCESS := 0;
  PAM_AUTH_ERR := 7;
  PAM_USER_UNKNOWN := 10;
  PAM_CONV_ERR := 19;
  PAM_IGNORE := 25;
  PAM_PROMPT_ECHO_ON := 2;
  PAM_ERROR_MSG := 3;
  PAM_TEXT_INFO := 4
|}.

(** ** Memory *)

(** Pointers are addresses; [NULL] is address 0. *)
Definition NULL : Z := 0.

(** [struct pam_message { int msg_style; const char *msg; }] *)
Record pam_message : Type := {
  msg_style : Z;
  msg : Z
}.

(** An allocated block is a [char] buffer or a
    [struct pam_response { char *resp; int resp_retcode; }]. *)
Inductive cell : Type :=
| Chars (bs : list byte)
| Response (resp : Z) (resp_retcode : Z).

(** What the bridge does to the outside, in the order it does it.  A [free]
    records the contents of the block at the moment it is released. *)
Inductive event : Type :=
| EvConv (num_msg : Z) (msgs : list pam_message) (appdata : Z)
| EvMemset (p : Z) (c : byte) (n : nat)
| EvFree (p : Z) (released : cell).

Record state : Type := {
  heap : gmap Z cell;
  trace : list event
}.

(** The conversation function of [struct pam_conv]:
    it takes [num_msg], the array of message pointers [msg], the address of
    the caller's response pointer [resp], and [appdata_ptr].
    It returns its result code, the pointer it stored through [resp]
    ([NULL] when it stored nothing: the bridge initialises [resp] to
    [NULL]) and the heap it leaves. *)
Definition conv_fn : Type :=
  Z -> list pam_message -> Z -> gmap Z cell -> Z * Z * gmap Z cell.

(** [struct pam_conv]; a null function pointer is [None]. *)
Record pam_conv : Type := {
  conv : option conv_fn;
  appdata_ptr : Z
}.

(** [pam_handle_t] is opaque; the bridge only uses it through
    [pam_get_item(pamh, PAM_CONV, &conv)], which returns a status and stores
    a pointer to a [struct pam_conv] (possibly null). *)
Record pam_handle : Type := {
  conv_item_status : Z;
  conv_item : option pam_conv
}.

(** ** A state-and-fault monad

    [None] is a fault: a read through a dangling pointer, a [strlen] that
    runs off its buffer, a [free] of something that is not allocated. *)
Definition M (A : Type) : Type := state -> option (A * state).

Definition ret {A} (a : A) : M A := fun st => Some (a, st).

Definition bind {A B} (m : M A) (k : A -> M B) : M B :=
  fun st => match m st with
            | Some (a, st') => k a st'
            | None => None
            end.

Declare Scope bridge_scope.
Delimit Scope bridge_scope with bridge.
Notation "'let*' x ':=' m 'in' k" := (bind m (fun x => k))
  (at level 10, x pattern, m at level 200, k at level 200,
   only parsing) : bridge_scope.
Notation "m '>>' k" := (bind m (fun _ => k))
  (at level 61, k at level 61, right associativity, only parsing)
  : bridge_scope.
Local Open Scope bridge_scope.

(** ** libc *)

(** Length of the C string at the start of a buffer: the index of its first
    zero byte.  A buffer without a zero byte has no length (the scan leaves
    the block). *)
Fixpoint c_strlen (bs : list byte) : option nat :=
  match bs with
  | [] => None
  | b :: bs' => if Byte.eqb b x00 then Some 0%nat else S <$> c_strlen bs'
  end.

Definition strlen (p : Z) : M nat :=
  fun st => match heap st !! p with
            | Some (Chars bs) =>
                match c_strlen bs with
                | Some n => Some (n, st)
                | None => None
                end
            | _ => None
            end.

(** The first [n] bytes of a buffer set to [c]. *)
Definition fill (c : byte) (n : nat) (bs : list byte) : list byte :=
  replicate n c ++ drop n bs.

Definition memset (p : Z) (c : byte) (n : nat) : M unit :=
  fun st => match heap st !! p with
            | Some (Chars bs) =>
                if (n <=? length bs)%nat
                then Some (tt, {| heap := <[p := Chars (fill c n bs)]> (heap st);
                                  trace := trace st ++ [EvMemset p c n] |})
                else None
            | _ => None
            end.

Definition free (p : Z) : M unit :=
  fun st => if p =? NULL then Some (tt, st)
            else match heap st !! p with
                 | Some c => Some (tt, {| heap := delete p (heap st);
                                          trace := trace st ++ [EvFree p c] |})
                 | None => None
                 end.

(** [r->resp] *)
Definition load_resp (r : Z) : M Z :=
  fun st => match heap st !! r with
            | Some (Response s _) => Some (s, st)
            | _ => None
            end.

(** The call [conv->conv(num_msg, msgs, &resp, appdata)].  *)
Definition call_conv (f : conv_fn) (num_msg : Z) (msgs : list pam_message)
    (appdata : Z) : M (Z * Z) :=
  fun st => let '(rc, resp, h) := f num_msg msgs appdata (heap st) in
            Some ((rc, resp), {| heap := h;
                                 trace := trace st ++ [EvConv num_msg msgs appdata] |}).

(** ** The bridge *)

Section Bridge.
Context {pam : PamAppl}.

(** pam_bridge.h, lines 9-12. *)
Definition PAM_TOTP_SUCCESS : Z := PAM_SUCCESS.
Definition PAM_TOTP_AUTH_ERR : Z := PAM_AUTH_ERR.
Definition PAM_TOTP_USER_UNKNOWN : Z := PAM_USER_UNKNOWN.
Definition PAM_TOTP_IGNORE : Z := PAM_IGNORE.

(** pam_bridge.c, lines 23-29: the cleanup of the response. *)
Definition release_response (resp : Z) : M unit :=
  if negb (resp =? NULL) then
    let* s := load_resp resp in
    (if negb (s =? NULL) then
       let* n := strlen s in
       memset s x00 n >>
       free s
     else ret tt) >>
    free resp
  else ret tt.

(** pam_bridge.c, lines 6-32. *)
Definition pam_msg (pamh : pam_handle) (style : Z) (text : Z) : M Z :=
  if negb (conv_item_status pamh =? PAM_SUCCESS) then ret PAM_CONV_ERR
  else match conv_item pamh with
       | None => ret PAM_CONV_ERR
       | Some cv =>
           match conv cv with
           | None => ret PAM_CONV_ERR
           | Some f =>
               let pmsg := {| msg_style := style; msg := text |} in
               let* (rc, resp) := call_conv f 1 [pmsg] (appdata_ptr cv) in
               release_response resp >>
               ret rc
           end
       end.

(** pam_bridge.c, lines 34-44. *)
Definition pam_totp_prompt (pamh : pam_handle) (text : Z) : M Z :=
  pam_msg pamh PAM_PROMPT_ECHO_ON text.

Definition pam_totp_info (pamh : pam_handle) (text : Z) : M Z :=
  pam_msg pamh PAM_TEXT_INFO text.

Definition pam_totp_error (pamh : pam_handle) (text : Z) : M Z :=
  pam_msg pamh PAM_ERROR_MSG text.

End Bridge.

(** ** Reading a run *)

(** The capability the bridge resolves on lines 13-16: the conversation
    function and its [appdata_ptr], when all three tests pass. *)
Definition capability {pam : PamAppl} (pamh : pam_handle) : option (conv_fn * Z) :=
  if conv_item_status pamh =? PAM_SUCCESS then
    match conv_item pamh with
    | Some cv =>
        match conv cv with
        | Some f => Some (f, appdata_ptr cv)
        | None => None
        end
    | None => None
    end
  else None.

(** A response pointer the conversation function may hand back: null, or
    the address of an allocated [struct pam_response] whose [resp] member
    is null or the address of a [char] buffer holding a terminated
    string. *)
Definition response_ok (h : gmap Z cell) (resp : Z) : bool :=
  if resp =? NULL then true
  else match h !! resp with
       | Some (Response s _) =>
           if s =? NULL then true
           else match h !! s with
                | Some (Chars bs) =>
                    match c_strlen bs with Some _ => true | None => false end
                | _ => false
                end
       | _ => false
       end.

Definition is_conv (e : event) : bool :=
  match e with EvConv _ _ _ => true | _ => false end.

Definition is_memset (e : event) : bool :=
  match e with EvMemset _ _ _ => true | _ => false end.

Definition frees (p : Z) (e : event) : bool :=
  match e with EvFree q _ => q =? p | _ => false end.

(** Every [char] buffer released in [evs] held only zero bytes when it was
    released. *)
Definition erased_at_release (evs : list event) : Prop :=
  forall p bs, In (EvFree p (Chars bs)) evs -> Forall (fun b => b = x00) bs.

(** The response of the conversation function overlaps the block at [p]:
    the envelope or its secret buffer is at [p]. *)
Definition aliases (h : gmap Z cell) (resp p : Z) : bool :=
  (resp =? p)
  || match h !! resp with
     | Some (Response s _) => s =? p
     | _ => false
     end.

(** The conversation function registered on [pamh], called from heap [h]
    with the one message the bridge builds for [text], leaves the block of
    [text] as it was and answers with memory of its own. *)
Definition conv_respects_text {pam : PamAppl} (pamh : pam_handle) (text : Z)
    (h : gmap Z cell) : Prop :=
  forall f ad style rc resp h1,
    capability pamh = Some (f, ad) ->
    f 1 [{| msg_style := style; msg := text |}] ad h = (rc, resp, h1) ->
    h1 !! text = h !! text /\ aliases h1 resp text = false.

(** ** The status taxonomy of the design document

    This part follows the document, not the code: the code's status is the
    [int] itself. *)
Inductive StatusCode : Type :=
| Success
| AuthError
| UserUnknown
| Ignore
| ConversationUnavailable
| CallbackFailure
| Unmapped (code : Z).

(** The fixed table of the document's section 6, rows in its order. *)
Definition spec_translate {pam : PamAppl} (raw : Z) : StatusCode :=
  if raw =? PAM_SUCCESS then Success
  else if raw =? PAM_AUTH_ERR then AuthError
  else if raw =? PAM_USER_UNKNOWN then UserUnknown
  else if raw =? PAM_IGNORE then Ignore
  else Unmapped raw.

(** The [int] by which the bridge's caller sees a status: the aliases of
    pam_bridge.h, [PAM_CONV_ERR] for the missing capability, the preserved
    value for an unmapped code.  The bridge has no code for
    [CallbackFailure]. *)
Definition status_code {pam : PamAppl} (s : StatusCode) : option Z :=
  match s with
  | Success => Some PAM_TOTP_SUCCESS
  | AuthError => Some PAM_TOTP_AUTH_ERR
  | UserUnknown => Some PAM_TOTP_USER_UNKNOWN
  | Ignore => Some PAM_TOTP_IGNORE
  | ConversationUnavailable => Some PAM_CONV_ERR
  | CallbackFailure => None
  | Unmapped code => Some code
  end.

(** ** Concrete scenarios (Linux-PAM constants) *)

Module Scenario.

Definition text_ptr : Z := 16.
Definition secret_ptr : Z := 100.
Definition envelope_ptr : Z := 200.

(** The caller's prompt lives in the heap at [text_ptr]. *)
Definition init : state :=
  {| heap := {[ text_ptr := Chars (list_byte_of_string "Enter code:" ++ [x00]) ]};
     trace := [] |}.

Definition handle_of (f : conv_fn) : pam_handle :=
  {| conv_item_status := 0;
     conv_item := Some {| conv := Some f; appdata_ptr := 7 |} |}.

(** A conversation function that answers with the given buffer and result
    code. *)
Definition answers (rc : Z) (buf : list byte) : conv_fn :=
  fun _ _ _ h =>
    (rc, envelope_ptr,
     <[envelope_ptr := Response secret_ptr 0]> (<[secret_ptr := Chars buf]> h)).

(** One that returns an envelope without a secret. *)
Definition answers_empty (rc : Z) : conv_fn :=
  fun _ _ _ h => (rc, envelope_ptr, <[envelope_ptr := Response NULL 0]> h).

(** One that stores no response at all. *)
Definition silent (rc : Z) : conv_fn :=
  fun _ _ _ h => (rc, NULL, h).

(** The code the user typed, exactly fitting its buffer. *)
Definition code : list byte := list_byte_of_string "123456" ++ [x00].

(** A line buffer cut at its first separator: the code, the terminator
    written over the separator, and what was read after it. *)
Definition cut_line : list byte :=
  list_byte_of_string "123456" ++ [x00] ++ list_byte_of_string "789" ++ [x00].

(** The heap those conversation functions leave when called from
    [init]. *)
Definition answered (buf : list byte) : gmap Z cell :=
  <[envelope_ptr := Response secret_ptr 0]>
    (<[secret_ptr := Chars buf]> (heap init)).

Definition answered_empty : gmap Z cell :=
  <[envelope_ptr := Response NULL 0]> (heap init).

(** A conversation function that also sets the envelope's
    [resp_retcode]. *)
Definition answers_retcode (rc retcode : Z) (buf : list byte) : conv_fn :=
  fun _ _ _ h =>
    (rc, envelope_ptr,
     <[envelope_ptr := Response secret_ptr retcode]> (<[secret_ptr := Chars buf]> h)).

(** A conversation function that hands the text of the first message back
    as the secret of its response. *)
Definition echo (rc : Z) : conv_fn :=
  fun _ msgs _ h =>
    match msgs with
    | m :: _ => (rc, envelope_ptr, <[envelope_ptr := Response (msg m) 0]> h)
    | [] => (rc, NULL, h)
    end.


Definition no_item : pam_handle :=
  {| conv_item_status := 4; conv_item := None |}.
Definition null_struct : pam_handle :=
  {| conv_item_status := 0; conv_item := None |}.
Definition null_function : pam_handle :=
  {| conv_item_status := 0;
     conv_item := Some {| conv := None; appdata_ptr := 7 |} |}.

End Scenario.

(** ** Strings and [fill] *)

Lemma c_strlen_lt (bs : list byte) (n : nat) :
  c_strlen bs = Some n -> (n < length bs)%nat.
Proof.
  revert n. induction bs as [|b bs IH]; intros n; simpl; [discriminate|].
  destruct (Byte.eqb b x00).
  - intros [= <-]. lia.
  - destruct (c_strlen bs) as [k|]; simpl; [|discriminate].
    intros [= <-]. specialize (IH k eq_refl). lia.
Qed.

Lemma c_strlen_terminator (bs : list byte) (n : nat) :
  c_strlen bs = Some n -> bs !! n = Some x00.
Proof.
  revert n. induction bs as [|b bs IH]; intros n; simpl; [discriminate|].
  destruct (Byte.eqb b x00) eqn:Hb.
  - intros [= <-]. apply Byte.byte_dec_bl in Hb. by subst.
  - destruct (c_strlen bs) as [k|]; simpl; [|discriminate].
    intros [= <-]. simpl. by apply IH.
Qed.


Lemma fill_length (c : byte) (n : nat) (bs : list byte) :
  (n <= length bs)%nat -> length (fill c n bs) = length bs.
Proof.
  intros Hn. unfold fill.
  rewrite length_app, length_replicate, length_drop. lia.
Qed.

Lemma fill_lookup_lt (c : byte) (n i : nat) (bs : list byte) :
  (i < n)%nat -> fill c n bs !! i = Some c.
Proof.
  intros Hi. unfold fill.
  rewrite lookup_app_l by (rewrite length_replicate; lia).
  by apply lookup_replicate_2.
Qed.

Lemma fill_lookup_ge (c : byte) (n i : nat) (bs : list byte) :
  (n <= i)%nat -> fill c n bs !! i = bs !! i.
Proof.
  intros Hi. unfold fill.
  rewrite lookup_app_r by (rewrite length_replicate; lia).
  rewrite length_replicate, lookup_drop. f_equal. lia.
Qed.

(** After the [memset] of [strlen] bytes, the string and its terminator
    read as zero. *)
Lemma fill_string_zero (bs : list byte) (n i : nat) :
  c_strlen bs = Some n -> (i <= n)%nat -> fill x00 n bs !! i = Some x00.
Proof.
  intros Hlen Hi. destruct (decide (i = n)) as [->|Hne].
  - rewrite fill_lookup_ge by lia. by apply c_strlen_terminator.
  - apply fill_lookup_lt. lia.
Qed.

Lemma fill_exact_fit (bs : list byte) (n : nat) :
  c_strlen bs = Some n -> length bs = S n ->
  Forall (fun b => b = x00) (fill x00 n bs).
Proof.
  intros Hlen Hfit. apply Forall_lookup. intros i b Hb.
  assert (i < length (fill x00 n bs))%nat as Hi by (by eapply lookup_lt_Some).
  rewrite fill_length in Hi by lia.
  rewrite (fill_string_zero bs n i) in Hb by (done || lia).
  by injection Hb.
Qed.

(** ** The cleanup, case by case *)

Lemma response_ok_cases (h : gmap Z cell) (resp : Z) :
  response_ok h resp = true ->
  resp = NULL
  \/ (resp <> NULL /\ exists rc', h !! resp = Some (Response NULL rc'))
  \/ (resp <> NULL /\ exists s rc' bs n,
        s <> NULL /\ h !! resp = Some (Response s rc')
        /\ h !! s = Some (Chars bs) /\ c_strlen bs = Some n).
Proof.
  unfold response_ok. destruct (Z.eqb_spec resp NULL) as [->|Hr]; [by left|].
  destruct (h !! resp) as [[bs|s rc']|] eqn:Hresp; try discriminate.
  destruct (Z.eqb_spec s NULL) as [->|Hs].
  - intros _. right; left. eauto.
  - destruct (h !! s) as [[bs|? ?]|] eqn:Hsec; try discriminate.
    destruct (c_strlen bs) as [n|] eqn:Hlen; try discriminate.
    intros _. right; right. split; [done|]. by exists s, rc', bs, n.
Qed.

Section Cleanup.
Context {pam : PamAppl}.

Lemma release_null (st : state) :
  release_response NULL st = Some (tt, st).
Proof. reflexivity. Qed.

Lemma release_null_secret (resp rc' : Z) (st : state) :
  resp <> NULL ->
  heap st !! resp = Some (Response NULL rc') ->
  release_response resp st
  = Some (tt, {| heap := delete resp (heap st);
                 trace := trace st ++ [EvFree resp (Response NULL rc')] |}).
Proof.
  intros Hr Hresp. unfold release_response, bind, load_resp, free, ret.
  destruct (Z.eqb_spec resp NULL) as [|_]; [done|]. simpl.
  by rewrite Hresp; simpl; rewrite Hresp.
Qed.

Lemma release_secret (resp s rc' : Z) (bs : list byte) (n : nat) (st : state) :
  resp <> NULL -> s <> NULL ->
  heap st !! resp = Some (Response s rc') ->
  heap st !! s = Some (Chars bs) ->
  c_strlen bs = Some n ->
  release_response resp st
  = Some (tt, {| heap := delete resp (delete s (heap st));
                 trace := trace st ++ [EvMemset s x00 n;
                                       EvFree s (Chars (fill x00 n bs));
                                       EvFree resp (Response s rc')] |}).
Proof.
  intros Hr Hs Hresp Hsec Hlen.
  assert (s <> resp) as Hne by (intros ->; congruence).
  pose proof (c_strlen_lt _ _ Hlen) as Hlt.
  unfold release_response, bind, load_resp, strlen, memset, free, ret.
  destruct (Z.eqb_spec resp NULL) as [|_]; [done|]. simpl.
  rewrite Hresp.
  destruct (Z.eqb_spec s NULL) as [|_]; [done|]. simpl.
  rewrite Hsec, Hlen. simpl. rewrite Hsec.
  destruct (Nat.leb_spec n (length bs)) as [_|]; [|lia]. simpl.
  rewrite lookup_insert_eq. simpl.
  rewrite delete_insert_eq, lookup_delete_ne, Hresp by done.
  by rewrite <- !app_assoc.
Qed.

(** A well-formed response is always cleaned up without a fault. *)
Lemma release_total (resp : Z) (st : state) :
  response_ok (heap st) resp = true ->
  exists st', release_response resp st = Some (tt, st').
Proof.
  intros Hok. apply response_ok_cases in Hok
    as [->|[[Hr [rc' Hresp]]|[Hr (s & rc' & bs & n & Hs & Hresp & Hsec & Hlen)]]].
  - eexists. apply release_null.
  - eexists. by apply release_null_secret.
  - eexists. by eapply release_secret.
Qed.

(** The cleanup touches the envelope and its secret buffer, nothing
    else. *)
Lemma release_frame (resp p : Z) (u : unit) (st st' : state) :
  release_response resp st = Some (u, st') ->
  p <> resp ->
  (forall s rc', heap st !! resp = Some (Response s rc') -> p <> s) ->
  heap st' !! p = heap st !! p.
Proof.
  unfold release_response, bind, load_resp, strlen, memset, free, ret.
  destruct (Z.eqb_spec resp NULL) as [|Hr]; simpl; [by intros [= _ <-]|].
  destruct (heap st !! resp) as [[?|s rc']|] eqn:Hresp; try discriminate.
  intros Hrun Hp Hsec. specialize (Hsec s rc' eq_refl).
  destruct (Z.eqb_spec s NULL) as [|Hs]; simpl in Hrun.
  - rewrite Hresp in Hrun. injection Hrun as _ <-. simpl.
    by rewrite lookup_delete_ne.
  - destruct (heap st !! s) as [[bs|? ?]|] eqn:Hs'; try discriminate.
    destruct (c_strlen bs) as [n|]; try discriminate.
    simpl in Hrun. rewrite Hs' in Hrun.
    destruct (n <=? length bs)%nat; try discriminate. simpl in Hrun.
    rewrite lookup_insert_eq in Hrun. simpl in Hrun.
    destruct (delete s (<[s:=Chars (fill x00 n bs)]> (heap st)) !! resp)
      as [c|]; try discriminate.
    injection Hrun as _ <-. simpl.
    rewrite lookup_delete_ne, lookup_delete_ne, lookup_insert_ne by done.
    done.
Qed.

(** ** [pam_msg], path by path *)

Lemma capability_None (pamh : pam_handle) :
  capability pamh = None <->
  (conv_item_status pamh <> PAM_SUCCESS
   \/ conv_item pamh = None
   \/ exists cv, conv_item pamh = Some cv /\ conv cv = None).
Proof.
  unfold capability.
  destruct (Z.eqb_spec (conv_item_status pamh) PAM_SUCCESS) as [He|Hne].
  - destruct (conv_item pamh) as [cv|] eqn:Hcv.
    + destruct (conv cv) as [f|] eqn:Hf.
      * split; [discriminate|].
        intros [?|[?|(cv' & [= <-] & ?)]]; congruence.
      * split; [|done]. intros _. right; right. by exists cv.
    + split; [|done]. intros _. by right; left.
  - split; [|done]. intros _. by left.
Qed.

Lemma pam_msg_early_exit (pamh : pam_handle) (style text : Z) (st : state) :
  capability pamh = None ->
  pam_msg pamh style text st = Some (PAM_CONV_ERR, st).
Proof.
  unfold capability, pam_msg.
  destruct (conv_item_status pamh =? PAM_SUCCESS); simpl; [|done].
  destruct (conv_item pamh) as [cv|]; [|done].
  by destruct (conv cv).
Qed.

(** With a capability, [pam_msg] is the call followed by the cleanup. *)
Lemma pam_msg_invoked (pamh : pam_handle) (f : conv_fn) (ad style text : Z)
    (st : state) (rc resp : Z) (h1 : gmap Z cell) :
  capability pamh = Some (f, ad) ->
  f 1 [{| msg_style := style; msg := text |}] ad (heap st) = (rc, resp, h1) ->
  pam_msg pamh style text st
  = match release_response resp
            {| heap := h1;
               trace := trace st ++ [EvConv 1 [{| msg_style := style; msg := text |}] ad] |}
    with
    | Some (_, st') => Some (rc, st')
    | None => None
    end.
Proof.
  unfold capability, pam_msg.
  destruct (conv_item_status pamh =? PAM_SUCCESS); simpl; [|done].
  destruct (conv_item pamh) as [cv|]; [|done].
  destruct (conv cv) as [g|]; [|done].
  intros [= -> <-] Hcall.
  unfold bind at 1. unfold call_conv. rewrite Hcall.
  unfold bind, ret.
  by destruct (release_response resp _) as [[[] st']|].
Qed.

End Cleanup.

Section Paths.
Context {pam : PamAppl}.
Variables (pamh : pam_handle) (f : conv_fn) (ad style text : Z).
Variables (st : state) (rc resp : Z) (h1 : gmap Z cell).

(** The one call the bridge makes. *)
Local Abbreviation sent :=
  (EvConv 1 [{| msg_style := style; msg := text |}] ad) (only parsing).

Hypothesis Hcap : capability pamh = Some (f, ad).
Hypothesis Hcall :
  f 1 [{| msg_style := style; msg := text |}] ad (heap st) = (rc, resp, h1).

Lemma pam_msg_path_null :
  resp = NULL ->
  pam_msg pamh style text st
  = Some (rc, {| heap := h1; trace := trace st ++ [sent] |}).
Proof.
  intros ->. by rewrite (pam_msg_invoked _ _ _ _ _ _ _ _ _ Hcap Hcall).
Qed.

Lemma pam_msg_path_null_secret (rc' : Z) :
  resp <> NULL ->
  h1 !! resp = Some (Response NULL rc') ->
  pam_msg pamh style text st
  = Some (rc, {| heap := delete resp h1;
                 trace := trace st ++ [sent; EvFree resp (Response NULL rc')] |}).
Proof.
  intros Hr Hresp. rewrite (pam_msg_invoked _ _ _ _ _ _ _ _ _ Hcap Hcall).
  rewrite (release_null_secret resp rc') by done. simpl.
  by rewrite <- app_assoc.
Qed.

Lemma pam_msg_path_secret (s rc' : Z) (bs : list byte) (n : nat) :
  resp <> NULL -> s <> NULL ->
  h1 !! resp = Some (Response s rc') ->
  h1 !! s = Some (Chars bs) ->
  c_strlen bs = Some n ->
  pam_msg pamh style text st
  = Some (rc, {| heap := delete resp (delete s h1);
                 trace := trace st ++ [sent; EvMemset s x00 n;
                                       EvFree s (Chars (fill x00 n bs));
                                       EvFree resp (Response s rc')] |}).
Proof.
  intros Hr Hs Hresp Hsec Hlen.
  rewrite (pam_msg_invoked _ _ _ _ _ _ _ _ _ Hcap Hcall).
  rewrite (release_secret resp s rc' bs n) by done. simpl.
  by rewrite <- app_assoc.
Qed.

End Paths.

(** ** The properties of the bridge *)

Section Properties.
Context {pam : PamAppl}.

(** C3. When the conversation capability is absent or malformed (the item
    retrieval fails, the capability struct is null, or its function
    pointer is null), [pam_msg] returns [PAM_CONV_ERR] and leaves the
    whole state as it found it: no callback is invoked, nothing is
    zeroed, nothing is released. *)
Theorem pam_msg_unavailable (pamh : pam_handle) (style text : Z) (st : state) :
  (conv_item_status pamh <> PAM_SUCCESS
   \/ conv_item pamh = None
   \/ exists cv, conv_item pamh = Some cv /\ conv cv = None) ->
  pam_msg pamh style text st = Some (PAM_CONV_ERR, st).
Proof.
  intros Hun. apply pam_msg_early_exit. by apply capability_None.
Qed.

(** C9. When the capability is invoked and stores no response (the
    response pointer stays null), [pam_msg] does not fault, zeroes and
    releases nothing (the only event is the call, the heap is the one the
    capability left) and returns the capability's raw code. *)
Theorem pam_msg_null_response (pamh : pam_handle) (f : conv_fn)
    (ad style text : Z) (st : state) (rc : Z) (h1 : gmap Z cell) :
  capability pamh = Some (f, ad) ->
  f 1 [{| msg_style := style; msg := text |}] ad (heap st) = (rc, NULL, h1) ->
  exists st',
    pam_msg pamh style text st = Some (rc, st')
    /\ heap st' = h1
    /\ trace st' = trace st ++ [EvConv 1 [{| msg_style := style; msg := text |}] ad].
Proof.
  intros Hcap Hcall. eexists. split; [|split].
  - by eapply pam_msg_path_null.
  - done.
  - done.
Qed.

(** C6. With a registered capability, [pam_msg] invokes it exactly once,
    with count 1 and a batch of one message whose style is the given
    style and whose text is the given text: the call is the first thing
    the run does and no other call follows it. *)
Theorem pam_msg_single_dispatch (pamh : pam_handle) (f : conv_fn)
    (ad style text : Z) (st : state) (rc resp : Z) (h1 : gmap Z cell) :
  capability pamh = Some (f, ad) ->
  f 1 [{| msg_style := style; msg := text |}] ad (heap st) = (rc, resp, h1) ->
  response_ok h1 resp = true ->
  exists st' evs,
    pam_msg pamh style text st = Some (rc, st')
    /\ trace st' = trace st ++ evs
    /\ List.filter is_conv evs
       = [EvConv 1 [{| msg_style := style; msg := text |}] ad]
    /\ length (List.filter is_conv evs) = 1%nat
    /\ exists rest,
        evs = EvConv 1 [{| msg_style := style; msg := text |}] ad :: rest
        /\ List.filter is_conv rest = [].
Proof.
  intros Hcap Hcall Hok. apply response_ok_cases in Hok
    as [->|[[Hr [rc' Hresp]]|[Hr (s & rc' & bs & n & Hs & Hresp & Hsec & Hlen)]]].
  - do 2 eexists. split; [by eapply pam_msg_path_null|].
    repeat split. by eexists.
  - do 2 eexists. split; [by eapply pam_msg_path_null_secret|].
    repeat split. by eexists.
  - do 2 eexists. split; [by eapply pam_msg_path_secret|].
    repeat split. by eexists.
Qed.

(** C4. When the capability returns a non-null envelope, the envelope is
    released exactly once and is gone from the heap afterwards, whether
    or not its secret field is null; when the secret field is null no
    [memset] happens at all: the run is the call and the one release. *)
Theorem pam_msg_envelope_released_once (pamh : pam_handle) (f : conv_fn)
    (ad style text : Z) (st : state) (rc resp : Z) (h1 : gmap Z cell) :
  capability pamh = Some (f, ad) ->
  f 1 [{| msg_style := style; msg := text |}] ad (heap st) = (rc, resp, h1) ->
  resp <> NULL ->
  response_ok h1 resp = true ->
  exists st' evs,
    pam_msg pamh style text st = Some (rc, st')
    /\ trace st' = trace st ++ evs
    /\ length (List.filter (frees resp) evs) = 1%nat
    /\ heap st' !! resp = None
    /\ (forall rc', h1 !! resp = Some (Response NULL rc') ->
          List.filter is_memset evs = []
          /\ evs = [EvConv 1 [{| msg_style := style; msg := text |}] ad;
                    EvFree resp (Response NULL rc')]).
Proof.
  intros Hcap Hcall Hnn Hok. apply response_ok_cases in Hok
    as [->|[[Hr [rc' Hresp]]|[Hr (s & rc' & bs & n & Hs & Hresp & Hsec & Hlen)]]];
    [done| |].
  - do 2 eexists. split; [by eapply pam_msg_path_null_secret|].
    split; [done|]. simpl. rewrite Z.eqb_refl. simpl.
    split; [done|]. split; [apply lookup_delete_eq|].
    intros rc'' Hresp'. rewrite Hresp in Hresp'. by injection Hresp' as <-.
  - assert (s <> resp) as Hne by (intros ->; congruence).
    do 2 eexists. split; [by eapply pam_msg_path_secret|].
    split; [done|]. simpl. rewrite Z.eqb_refl.
    destruct (Z.eqb_spec s resp) as [|_]; [done|]. simpl.
    split; [done|]. split; [apply lookup_delete_eq|].
    intros rc'' Hresp'. rewrite Hresp in Hresp'. by injection Hresp' as ? _.
Qed.

(** C2. The cleanup does not depend on the capability's result code: for
    every code [rc], a failure code included, a non-null envelope is
    released as the last step of the call and is gone from the heap, and
    a non-null secret field is zeroed over its string and released
    before it. *)
Theorem pam_msg_cleanup_unconditional (pamh : pam_handle) (f : conv_fn)
    (ad style text : Z) (st : state) (rc resp : Z) (h1 : gmap Z cell) :
  capability pamh = Some (f, ad) ->
  f 1 [{| msg_style := style; msg := text |}] ad (heap st) = (rc, resp, h1) ->
  resp <> NULL ->
  response_ok h1 resp = true ->
  exists st' s rc',
    h1 !! resp = Some (Response s rc')
    /\ pam_msg pamh style text st = Some (rc, st')
    /\ last (trace st') = Some (EvFree resp (Response s rc'))
    /\ heap st' !! resp = None
    /\ (s <> NULL ->
        heap st' !! s = None
        /\ exists bs n,
             h1 !! s = Some (Chars bs) /\ c_strlen bs = Some n
             /\ trace st'
                = trace st ++ [EvConv 1 [{| msg_style := style; msg := text |}] ad;
                               EvMemset s x00 n;
                               EvFree s (Chars (fill x00 n bs));
                               EvFree resp (Response s rc')]).
Proof.
  intros Hcap Hcall Hnn Hok. apply response_ok_cases in Hok
    as [->|[[Hr [rc' Hresp]]|[Hr (s & rc' & bs & n & Hs & Hresp & Hsec & Hlen)]]];
    [done| |].
  - eexists _, NULL, rc'. split; [done|].
    split; [by eapply pam_msg_path_null_secret|]. simpl.
    split; [by rewrite last_app|]. split; [apply lookup_delete_eq|done].
  - assert (s <> resp) as Hne by (intros ->; congruence).
    eexists _, s, rc'. split; [done|].
    split; [by eapply pam_msg_path_secret|]. simpl.
    split; [by rewrite last_app|]. split; [apply lookup_delete_eq|].
    intros _. split.
    + rewrite lookup_delete_ne by done. apply lookup_delete_eq.
    + by exists bs, n.
Qed.

(** C1 (amended). When the capability returns an envelope whose secret
    field is non-null, the bridge zeroes the string held in the field,
    its [strlen] bytes up to the first zero byte, before it releases the
    field: at the release the buffer reads zero at every index up to and
    including that terminator, and reads as the capability left it after
    that.  When the buffer is exactly the string and its terminator,
    every byte of it is zero at the release. *)
Theorem pam_msg_secret_string_zeroed (pamh : pam_handle) (f : conv_fn)
    (ad style text : Z) (st : state) (rc resp : Z) (h1 : gmap Z cell)
    (s rc' : Z) (bs : list byte) (n : nat) :
  capability pamh = Some (f, ad) ->
  f 1 [{| msg_style := style; msg := text |}] ad (heap st) = (rc, resp, h1) ->
  resp <> NULL ->
  h1 !! resp = Some (Response s rc') ->
  s <> NULL ->
  h1 !! s = Some (Chars bs) ->
  c_strlen bs = Some n ->
  exists st' evs,
    pam_msg pamh style text st = Some (rc, st')
    /\ trace st' = trace st ++ evs
    /\ evs = [EvConv 1 [{| msg_style := style; msg := text |}] ad;
              EvMemset s x00 n;
              EvFree s (Chars (fill x00 n bs));
              EvFree resp (Response s rc')]
    /\ (forall i, (i <= n)%nat -> fill x00 n bs !! i = Some x00)
    /\ (forall i, (n < i)%nat -> fill x00 n bs !! i = bs !! i)
    /\ (length bs = S n -> erased_at_release evs).
Proof.
  intros Hcap Hcall Hr Hresp Hs Hsec Hlen.
  do 2 eexists. split; [by eapply pam_msg_path_secret|].
  split; [done|]. split; [done|].
  split; [intros i Hi; by apply fill_string_zero|].
  split; [intros i Hi; apply fill_lookup_ge; lia|].
  intros Hfit p bs' Hin. simpl in Hin.
  destruct Hin as [|[|[Hev|[|[]]]]]; try discriminate.
  injection Hev as _ <-. by apply fill_exact_fit.
Qed.

(** C5. When the capability is invoked, [pam_msg] returns its raw code
    unchanged, and that [int] is the code of the status the document's
    table assigns to the raw code: the four recognised codes come back as
    their [PAM_TOTP_] aliases, and a code outside the table is
    [Unmapped] and comes back with its original value. *)
Theorem pam_msg_status_translation (pamh : pam_handle) (f : conv_fn)
    (ad style text : Z) (st : state) (rc resp : Z) (h1 : gmap Z cell) :
  capability pamh = Some (f, ad) ->
  f 1 [{| msg_style := style; msg := text |}] ad (heap st) = (rc, resp, h1) ->
  response_ok h1 resp = true ->
  exists r st',
    pam_msg pamh style text st = Some (r, st')
    /\ r = rc
    /\ status_code (spec_translate rc) = Some r
    /\ (rc = PAM_SUCCESS -> r = PAM_TOTP_SUCCESS)
    /\ (rc = PAM_AUTH_ERR -> r = PAM_TOTP_AUTH_ERR)
    /\ (rc = PAM_USER_UNKNOWN -> r = PAM_TOTP_USER_UNKNOWN)
    /\ (rc = PAM_IGNORE -> r = PAM_TOTP_IGNORE)
    /\ (rc <> PAM_SUCCESS -> rc <> PAM_AUTH_ERR ->
        rc <> PAM_USER_UNKNOWN -> rc <> PAM_IGNORE ->
        spec_translate rc = Unmapped rc).
Proof.
  intros Hcap Hcall Hok.
  assert (exists st', pam_msg pamh style text st = Some (rc, st')) as [st' Hrun].
  { rewrite (pam_msg_invoked _ _ _ _ _ _ _ _ _ Hcap Hcall).
    destruct (release_total resp
      {| heap := h1;
         trace := trace st ++ [EvConv 1 [{| msg_style := style; msg := text |}] ad] |}
      Hok) as [st' ->]. by exists st'. }
  exists rc, st'. split; [done|]. split; [done|].
  unfold spec_translate, status_code, PAM_TOTP_SUCCESS, PAM_TOTP_AUTH_ERR,
    PAM_TOTP_USER_UNKNOWN, PAM_TOTP_IGNORE.
  repeat split; try done.
  - destruct (Z.eqb_spec rc PAM_SUCCESS) as [->|]; [done|].
    destruct (Z.eqb_spec rc PAM_AUTH_ERR) as [->|]; [done|].
    destruct (Z.eqb_spec rc PAM_USER_UNKNOWN) as [->|]; [done|].
    by destruct (Z.eqb_spec rc PAM_IGNORE) as [->|].
  - intros H1 H2 H3 H4.
    destruct (Z.eqb_spec rc PAM_SUCCESS); [done|].
    destruct (Z.eqb_spec rc PAM_AUTH_ERR); [done|].
    destruct (Z.eqb_spec rc PAM_USER_UNKNOWN); [done|].
    by destruct (Z.eqb_spec rc PAM_IGNORE).
Qed.

(** Any run with a registered capability and a well-formed response
    makes one call, with the message built from its arguments. *)
Lemma pam_msg_dispatch (pamh : pam_handle) (f : conv_fn)
    (ad style text : Z) (st : state) (rc resp : Z) (h1 : gmap Z cell) :
  capability pamh = Some (f, ad) ->
  f 1 [{| msg_style := style; msg := text |}] ad (heap st) = (rc, resp, h1) ->
  response_ok h1 resp = true ->
  exists st' evs,
    pam_msg pamh style text st = Some (rc, st')
    /\ trace st' = trace st ++ evs
    /\ List.filter is_conv evs
       = [EvConv 1 [{| msg_style := style; msg := text |}] ad].
Proof.
  intros Hcap Hcall Hok. apply response_ok_cases in Hok
    as [->|[[Hr [rc' Hresp]]|[Hr (s & rc' & bs & n & Hs & Hresp & Hsec & Hlen)]]].
  - do 2 eexists. split; [by eapply pam_msg_path_null|]. by split.
  - do 2 eexists. split; [by eapply pam_msg_path_null_secret|]. by split.
  - do 2 eexists. split; [by eapply pam_msg_path_secret|]. by split.
Qed.

(** C7. Each wrapper is [pam_msg] at a fixed style, on every channel,
    text and state: [pam_totp_prompt] at [PAM_PROMPT_ECHO_ON],
    [pam_totp_info] at [PAM_TEXT_INFO], [pam_totp_error] at
    [PAM_ERROR_MSG]; and the one message each of them sends to a
    registered capability carries that style and the given text. *)
Theorem wrappers_fix_style (pamh : pam_handle) (f : conv_fn) (ad text : Z)
    (st : state) :
  capability pamh = Some (f, ad) ->
  (pam_totp_prompt pamh text st = pam_msg pamh PAM_PROMPT_ECHO_ON text st
   /\ forall rc resp h1,
        f 1 [{| msg_style := PAM_PROMPT_ECHO_ON; msg := text |}] ad (heap st)
        = (rc, resp, h1) ->
        response_ok h1 resp = true ->
        exists st' evs,
          pam_totp_prompt pamh text st = Some (rc, st')
          /\ trace st' = trace st ++ evs
          /\ List.filter is_conv evs
             = [EvConv 1 [{| msg_style := PAM_PROMPT_ECHO_ON; msg := text |}] ad])
  /\ (pam_totp_info pamh text st = pam_msg pamh PAM_TEXT_INFO text st
      /\ forall rc resp h1,
           f 1 [{| msg_style := PAM_TEXT_INFO; msg := text |}] ad (heap st)
           = (rc, resp, h1) ->
           response_ok h1 resp = true ->
           exists st' evs,
             pam_totp_info pamh text st = Some (rc, st')
             /\ trace st' = trace st ++ evs
             /\ List.filter is_conv evs
                = [EvConv 1 [{| msg_style := PAM_TEXT_INFO; msg := text |}] ad])
  /\ (pam_totp_error pamh text st = pam_msg pamh PAM_ERROR_MSG text st
      /\ forall rc resp h1,
           f 1 [{| msg_style := PAM_ERROR_MSG; msg := text |}] ad (heap st)
           = (rc, resp, h1) ->
           response_ok h1 resp = true ->
           exists st' evs,
             pam_totp_error pamh text st = Some (rc, st')
             /\ trace st' = trace st ++ evs
             /\ List.filter is_conv evs
                = [EvConv 1 [{| msg_style := PAM_ERROR_MSG; msg := text |}] ad]).
Proof.
  intros Hcap. unfold pam_totp_prompt, pam_totp_info, pam_totp_error.
  repeat split; intros rc resp h1 Hcall Hok; by eapply pam_msg_dispatch.
Qed.

(** C8. Two runs in which the capability returns the same raw code and
    the same response, apart from the bytes of the secret buffer, return
    the same status and leave the same heap, in which the secret buffer
    no longer exists. *)
Theorem pam_msg_secret_independent (pamh1 pamh2 : pam_handle)
    (f1 f2 : conv_fn) (ad style text : Z) (st : state) (rc resp s rc' : Z)
    (h1 h2 : gmap Z cell) (bs1 bs2 : list byte) (n1 n2 : nat) :
  capability pamh1 = Some (f1, ad) ->
  capability pamh2 = Some (f2, ad) ->
  f1 1 [{| msg_style := style; msg := text |}] ad (heap st) = (rc, resp, h1) ->
  f2 1 [{| msg_style := style; msg := text |}] ad (heap st) = (rc, resp, h2) ->
  resp <> NULL -> s <> NULL ->
  h1 !! resp = Some (Response s rc') ->
  h2 !! resp = Some (Response s rc') ->
  h1 !! s = Some (Chars bs1) -> c_strlen bs1 = Some n1 ->
  h2 !! s = Some (Chars bs2) -> c_strlen bs2 = Some n2 ->
  delete s h1 = delete s h2 ->
  exists r st1 st2,
    pam_msg pamh1 style text st = Some (r, st1)
    /\ pam_msg pamh2 style text st = Some (r, st2)
    /\ r = rc
    /\ heap st1 = heap st2
    /\ heap st1 !! s = None.
Proof.
  intros Hcap1 Hcap2 Hcall1 Hcall2 Hr Hs Hresp1 Hresp2 Hsec1 Hlen1 Hsec2 Hlen2 Heq.
  assert (s <> resp) as Hne by (intros ->; congruence).
  do 3 eexists. split; [by eapply pam_msg_path_secret|].
  split; [by eapply pam_msg_path_secret|]. simpl.
  split; [done|]. split; [by rewrite Heq|].
  rewrite lookup_delete_ne by done. apply lookup_delete_eq.
Qed.

(** A run of [pam_msg] that returns leaves the text block as it was, when
    the conversation function does. *)
Lemma pam_msg_text_frame (pamh : pam_handle) (style text : Z)
    (st st' : state) (rc : Z) :
  conv_respects_text pamh text (heap st) ->
  pam_msg pamh style text st = Some (rc, st') ->
  heap st' !! text = heap st !! text.
Proof.
  intros Hconv Hrun. destruct (capability pamh) as [[f ad]|] eqn:Hcap.
  - destruct (f 1 [{| msg_style := style; msg := text |}] ad (heap st))
      as [[rc0 resp] h1] eqn:Hcall.
    destruct (Hconv f ad style rc0 resp h1 Hcap Hcall) as [Hkeep Halias].
    rewrite (pam_msg_invoked _ _ _ _ _ _ _ _ _ Hcap Hcall) in Hrun.
    destruct (release_response resp _) as [[u st'']|] eqn:Hrel; [|done].
    injection Hrun as _ <-.
    unfold aliases in Halias. apply orb_false_elim in Halias as [Hp Hsec].
    rewrite (release_frame _ text _ _ _ Hrel); simpl; [done| |].
    + intros ->. by rewrite Z.eqb_refl in Hp.
    + intros s rc' Hresp. rewrite Hresp in Hsec.
      intros ->. by rewrite Z.eqb_refl in Hsec.
  - rewrite (pam_msg_early_exit _ _ _ _ Hcap) in Hrun. by injection Hrun as _ <-.
Qed.

(** The cleanup only appends to the trace. *)
Lemma release_trace_extends (resp : Z) (u : unit) (st st' : state) :
  release_response resp st = Some (u, st') ->
  exists evs, trace st' = trace st ++ evs.
Proof.
  unfold release_response, bind, load_resp, strlen, memset, free, ret.
  destruct (Z.eqb_spec resp NULL) as [|Hr]; simpl.
  { intros [= _ <-]. exists []. by rewrite app_nil_r. }
  destruct (heap st !! resp) as [[?|s rc']|] eqn:Hresp; try discriminate.
  destruct (Z.eqb_spec s NULL) as [|Hs]; simpl.
  - rewrite Hresp. intros [= _ <-]. simpl. by eexists.
  - destruct (heap st !! s) as [[bs|? ?]|] eqn:Hs'; try discriminate.
    destruct (c_strlen bs) as [n|]; try discriminate.
    simpl. rewrite Hs'.
    destruct (n <=? length bs)%nat; try discriminate. simpl.
    rewrite lookup_insert_eq. simpl.
    destruct (delete s (<[s:=Chars (fill x00 n bs)]> (heap st)) !! resp)
      as [c|]; try discriminate.
    intros [= _ <-]. simpl. rewrite <- !app_assoc. by eexists.
Qed.

(** A run that returns on a handle with a capability has called it with
    the caller's text pointer itself. *)
Lemma pam_msg_call_recorded (pamh : pam_handle) (f : conv_fn)
    (ad style text : Z) (st st' : state) (rc : Z) :
  capability pamh = Some (f, ad) ->
  pam_msg pamh style text st = Some (rc, st') ->
  In (EvConv 1 [{| msg_style := style; msg := text |}] ad) (trace st').
Proof.
  intros Hcap Hrun.
  destruct (f 1 [{| msg_style := style; msg := text |}] ad (heap st))
    as [[rc0 resp] h1] eqn:Hcall.
  rewrite (pam_msg_invoked _ _ _ _ _ _ _ _ _ Hcap Hcall) in Hrun.
  destruct (release_response resp _) as [[u st'']|] eqn:Hrel; [|done].
  injection Hrun as _ <-.
  destruct (release_trace_extends _ _ _ _ Hrel) as [evs ->]. simpl.
  apply in_or_app. left. apply in_or_app. right. by left.
Qed.

(** C10 (amended). The bridge hands the caller's text to the capability by
    reference: the message of the call carries the text pointer itself.
    When the conversation function leaves the text block as it was and
    hands back a response that is memory of its own (neither the envelope
    nor its secret buffer is the text block), the block holds the same
    bytes after [pam_msg], and after each wrapper, as before. *)
Theorem pam_msg_text_unchanged (pamh : pam_handle) (text : Z) (st : state) :
  conv_respects_text pamh text (heap st) ->
  (forall style rc st',
      pam_msg pamh style text st = Some (rc, st') ->
      heap st' !! text = heap st !! text)
  /\ (forall rc st',
        pam_totp_prompt pamh text st = Some (rc, st') ->
        heap st' !! text = heap st !! text)
  /\ (forall rc st',
        pam_totp_info pamh text st = Some (rc, st') ->
        heap st' !! text = heap st !! text)
  /\ (forall rc st',
        pam_totp_error pamh text st = Some (rc, st') ->
        heap st' !! text = heap st !! text)
  /\ (forall f ad style rc st',
        capability pamh = Some (f, ad) ->
        pam_msg pamh style text st = Some (rc, st') ->
        In (EvConv 1 [{| msg_style := style; msg := text |}] ad) (trace st')).
Proof.
  intros Hconv. unfold pam_totp_prompt, pam_totp_info, pam_totp_error.
  repeat split; intros; (by eapply pam_msg_text_frame)
                        || (by eapply pam_msg_call_recorded).
Qed.

End Properties.

(** ** The properties on the concrete scenarios *)

Section Witnesses.
Import Scenario.

Local Abbreviation run := (pam_msg (pam := linux_pam)) (only parsing).

Lemma pam_msg_unavailable_witness :
  run no_item 2 text_ptr init = Some (19, init)
  /\ run null_struct 2 text_ptr init = Some (19, init)
  /\ run null_function 2 text_ptr init = Some (19, init).
Proof.
  split; [|split].
  - apply (pam_msg_unavailable (pam := linux_pam) no_item 2 text_ptr init).
    left. vm_compute. discriminate.
  - apply (pam_msg_unavailable (pam := linux_pam) null_struct 2 text_ptr init).
    right; left. reflexivity.
  - apply (pam_msg_unavailable (pam := linux_pam) null_function 2 text_ptr init).
    right; right. eexists. split; reflexivity.
Defined.

Lemma pam_msg_null_response_witness :
  exists st',
    run (handle_of (silent 0)) 4 text_ptr init = Some (0, st')
    /\ heap st' = heap init
    /\ trace st' = [EvConv 1 [{| msg_style := 4; msg := text_ptr |}] 7].
Proof.
  apply (pam_msg_null_response (pam := linux_pam) (handle_of (silent 0))
           (silent 0) 7 4 text_ptr init 0 (heap init)); reflexivity.
Defined.

Lemma pam_msg_single_dispatch_witness :
  exists st' evs,
    run (handle_of (answers 0 code)) 2 text_ptr init = Some (0, st')
    /\ trace st' = trace init ++ evs
    /\ List.filter is_conv evs
       = [EvConv 1 [{| msg_style := 2; msg := text_ptr |}] 7]
    /\ length (List.filter is_conv evs) = 1%nat
    /\ exists rest,
        evs = EvConv 1 [{| msg_style := 2; msg := text_ptr |}] 7 :: rest
        /\ List.filter is_conv rest = [].
Proof.
  apply (pam_msg_single_dispatch (pam := linux_pam) (handle_of (answers 0 code))
           (answers 0 code) 7 2 text_ptr init 0 envelope_ptr (answered code));
    reflexivity.
Defined.

Lemma pam_msg_envelope_released_once_witness :
  exists st' evs,
    run (handle_of (answers_empty 0)) 2 text_ptr init = Some (0, st')
    /\ trace st' = trace init ++ evs
    /\ length (List.filter (frees envelope_ptr) evs) = 1%nat
    /\ heap st' !! envelope_ptr = None
    /\ (forall rc', answered_empty !! envelope_ptr = Some (Response NULL rc') ->
          List.filter is_memset evs = []
          /\ evs = [EvConv 1 [{| msg_style := 2; msg := text_ptr |}] 7;
                    EvFree envelope_ptr (Response NULL rc')]).
Proof.
  apply (pam_msg_envelope_released_once (pam := linux_pam)
           (handle_of (answers_empty 0)) (answers_empty 0) 7 2 text_ptr init
           0 envelope_ptr answered_empty);
    [reflexivity | reflexivity | discriminate | reflexivity].
Defined.

(** The capability fails with [PAM_CONV_ERR] and still hands back a
    response. *)
Lemma pam_msg_cleanup_unconditional_witness :
  exists st' s rc',
    answered code !! envelope_ptr = Some (Response s rc')
    /\ run (handle_of (answers 19 code)) 2 text_ptr init = Some (19, st')
    /\ last (trace st') = Some (EvFree envelope_ptr (Response s rc'))
    /\ heap st' !! envelope_ptr = None
    /\ (s <> NULL ->
        heap st' !! s = None
        /\ exists bs n,
             answered code !! s = Some (Chars bs) /\ c_strlen bs = Some n
             /\ trace st'
                = trace init ++ [EvConv 1 [{| msg_style := 2; msg := text_ptr |}] 7;
                                 EvMemset s x00 n;
                                 EvFree s (Chars (fill x00 n bs));
                                 EvFree envelope_ptr (Response s rc')]).
Proof.
  apply (pam_msg_cleanup_unconditional (pam := linux_pam)
           (handle_of (answers 19 code)) (answers 19 code) 7 2 text_ptr init
           19 envelope_ptr (answered code));
    [reflexivity | reflexivity | discriminate | reflexivity].
Defined.

Lemma pam_msg_secret_string_zeroed_witness :
  exists st' evs,
    run (handle_of (answers 0 cut_line)) 2 text_ptr init = Some (0, st')
    /\ trace st' = trace init ++ evs
    /\ evs = [EvConv 1 [{| msg_style := 2; msg := text_ptr |}] 7;
              EvMemset secret_ptr x00 6;
              EvFree secret_ptr (Chars (fill x00 6 cut_line));
              EvFree envelope_ptr (Response secret_ptr 0)]
    /\ (forall i, (i <= 6)%nat -> fill x00 6 cut_line !! i = Some x00)
    /\ (forall i, (6 < i)%nat -> fill x00 6 cut_line !! i = cut_line !! i)
    /\ (length cut_line = 7%nat -> erased_at_release evs).
Proof.
  apply (pam_msg_secret_string_zeroed (pam := linux_pam)
           (handle_of (answers 0 cut_line)) (answers 0 cut_line) 7 2 text_ptr
           init 0 envelope_ptr (answered cut_line) secret_ptr 0 cut_line 6);
    [reflexivity | reflexivity | discriminate | reflexivity | discriminate
    | reflexivity | reflexivity].
Defined.

(** C1, as stated, fails: the capability answers with a line buffer cut
    at its first separator; the bridge zeroes the six bytes of the code,
    and releases the buffer with the bytes after the terminator still in
    it. *)
Lemma pam_msg_leaves_bytes_after_terminator :
  exists st',
    run (handle_of (answers 0 cut_line)) 2 text_ptr init = Some (0, st')
    /\ In (EvFree secret_ptr
             (Chars [x00; x00; x00; x00; x00; x00; x00;
                     "7"%byte; "8"%byte; "9"%byte; x00]))
          (trace st')
    /\ ~ erased_at_release (trace st').
Proof.
  eexists. split; [vm_compute; reflexivity|]. simpl. split.
  - right; right; left. reflexivity.
  - intros Herased.
    specialize (Herased secret_ptr _ (or_intror (or_intror (or_introl eq_refl)))).
    apply (Forall_lookup_1 _ _ 7%nat "7"%byte) in Herased; [discriminate|].
    reflexivity.
Qed.

(** The capability reports an authentication failure. *)
Lemma pam_msg_status_translation_witness :
  exists r st',
    run (handle_of (answers 7 code)) 2 text_ptr init = Some (r, st')
    /\ r = 7
    /\ status_code (pam := linux_pam) (spec_translate (pam := linux_pam) 7) = Some r
    /\ (7 = 0 -> r = 0)
    /\ (7 = 7 -> r = 7)
    /\ (7 = 10 -> r = 10)
    /\ (7 = 25 -> r = 25)
    /\ (7 <> 0 -> 7 <> 7 -> 7 <> 10 -> 7 <> 25 ->
        spec_translate (pam := linux_pam) 7 = Unmapped 7).
Proof.
  apply (pam_msg_status_translation (pam := linux_pam)
           (handle_of (answers 7 code)) (answers 7 code) 7 2 text_ptr init
           7 envelope_ptr (answered code)); reflexivity.
Defined.

(** A code outside the table comes back as it is. *)
Example pam_msg_unmapped_code :
  exists st',
    run (handle_of (answers 28 code)) 2 text_ptr init = Some (28, st')
    /\ spec_translate (pam := linux_pam) 28 = Unmapped 28.
Proof. eexists. split; vm_compute; reflexivity. Qed.

(** The three scenarios of style routing, against a capability that
    stores no response. *)
Lemma wrappers_fix_style_witness :
  (exists st' evs,
      pam_totp_prompt (pam := linux_pam) (handle_of (silent 0)) text_ptr init
      = Some (0, st')
      /\ trace st' = trace init ++ evs
      /\ List.filter is_conv evs
         = [EvConv 1 [{| msg_style := 2; msg := text_ptr |}] 7])
  /\ (exists st' evs,
        pam_totp_info (pam := linux_pam) (handle_of (silent 0)) text_ptr init
        = Some (0, st')
        /\ trace st' = trace init ++ evs
        /\ List.filter is_conv evs
           = [EvConv 1 [{| msg_style := 4; msg := text_ptr |}] 7])
  /\ (exists st' evs,
        pam_totp_error (pam := linux_pam) (handle_of (silent 0)) text_ptr init
        = Some (0, st')
        /\ trace st' = trace init ++ evs
        /\ List.filter is_conv evs
           = [EvConv 1 [{| msg_style := 3; msg := text_ptr |}] 7]).
Proof.
  destruct (wrappers_fix_style (pam := linux_pam) (handle_of (silent 0))
              (silent 0) 7 text_ptr init eq_refl)
    as [[_ Hprompt] [[_ Hinfo] [_ Herror]]].
  split; [|split].
  - apply (Hprompt 0 NULL (heap init)); reflexivity.
  - apply (Hinfo 0 NULL (heap init)); reflexivity.
  - apply (Herror 0 NULL (heap init)); reflexivity.
Defined.

(** Two answers of different contents and lengths. *)
Lemma pam_msg_secret_independent_witness :
  exists r st1 st2,
    run (handle_of (answers 0 code)) 2 text_ptr init = Some (r, st1)
    /\ run (handle_of (answers 0 cut_line)) 2 text_ptr init = Some (r, st2)
    /\ r = 0
    /\ heap st1 = heap st2
    /\ heap st1 !! secret_ptr = None.
Proof.
  apply (pam_msg_secret_independent (pam := linux_pam)
           (handle_of (answers 0 code)) (handle_of (answers 0 cut_line))
           (answers 0 code) (answers 0 cut_line) 7 2 text_ptr init
           0 envelope_ptr secret_ptr 0 (answered code) (answered cut_line)
           code cut_line 6 6);
    [reflexivity | reflexivity | reflexivity | reflexivity
    | discriminate | discriminate
    | reflexivity | reflexivity | reflexivity | reflexivity
    | reflexivity | reflexivity | vm_compute; reflexivity].
Defined.

Lemma answers_respects_text :
  conv_respects_text (pam := linux_pam) (handle_of (answers 0 code))
    text_ptr (heap init).
Proof.
  intros f ad style rc resp h1 Hcap Hcall.
  injection Hcap as <- <-. injection Hcall as <- <- <-.
  split; reflexivity.
Defined.

Lemma pam_msg_text_unchanged_witness :
  conv_respects_text (pam := linux_pam) (handle_of (answers 0 code))
    text_ptr (heap init)
  /\ exists st',
       pam_totp_prompt (pam := linux_pam) (handle_of (answers 0 code))
         text_ptr init = Some (0, st')
       /\ heap st' !! text_ptr
          = Some (Chars (list_byte_of_string "Enter code:" ++ [x00])).
Proof.
  split; [exact answers_respects_text|].
  destruct (pam_msg_text_unchanged (pam := linux_pam)
              (handle_of (answers 0 code)) text_ptr init answers_respects_text)
    as (_ & Hprompt & _ & _).
  eexists. split; [vm_compute; reflexivity|].
  apply (Hprompt 0). vm_compute. reflexivity.
Defined.

(** C10, as stated, fails: the capability hands the text pointer back as
    the secret of its response (a well-formed response: the text is a
    terminated string); the bridge then zeroes the eleven bytes of the
    prompt and releases the block. *)
Lemma pam_msg_zeroes_echoed_text :
  exists st',
    run (handle_of (echo 0)) 2 text_ptr init = Some (0, st')
    /\ In (EvMemset text_ptr x00 11) (trace st')
    /\ In (EvFree text_ptr (Chars (replicate 12 x00))) (trace st')
    /\ heap init !! text_ptr
       = Some (Chars (list_byte_of_string "Enter code:" ++ [x00]))
    /\ heap st' !! text_ptr = None
    /\ heap st' !! text_ptr <> heap init !! text_ptr.
Proof.
  eexists. split; [vm_compute; reflexivity|]. simpl.
  split; [right; left; reflexivity|].
  split; [right; right; left; reflexivity|].
  split; [reflexivity|]. split; [reflexivity|]. discriminate.
Qed.

End Witnesses.

(** ** Further properties of the bridge *)

Section Inversion.
Context {pam : PamAppl}.

(** The cleanup returns only on a well-formed response. *)
Lemma release_inv (resp : Z) (u : unit) (st st' : state) :
  release_response resp st = Some (u, st') ->
  response_ok (heap st) resp = true.
Proof.
  unfold release_response, response_ok, bind, load_resp, strlen, memset, free, ret.
  destruct (Z.eqb_spec resp NULL) as [|Hr]; simpl; [done|].
  destruct (heap st !! resp) as [[?|s rc']|] eqn:Hresp; try discriminate.
  destruct (Z.eqb_spec s NULL) as [|Hs]; simpl; [done|].
  destruct (heap st !! s) as [[bs|? ?]|] eqn:Hsec; try discriminate.
  by destruct (c_strlen bs).
Qed.

(** A run that returns took the early exit, or called the capability and
    got a well-formed response. *)
Lemma pam_msg_success_inv (pamh : pam_handle) (style text : Z)
    (st st' : state) (rc : Z) :
  pam_msg pamh style text st = Some (rc, st') ->
  (capability pamh = None /\ rc = PAM_CONV_ERR /\ st' = st)
  \/ exists f ad resp h1,
       capability pamh = Some (f, ad)
       /\ f 1 [{| msg_style := style; msg := text |}] ad (heap st) = (rc, resp, h1)
       /\ response_ok h1 resp = true.
Proof.
  intros Hrun. destruct (capability pamh) as [[f ad]|] eqn:Hcap.
  - right.
    destruct (f 1 [{| msg_style := style; msg := text |}] ad (heap st))
      as [[rc0 resp] h1] eqn:Hcall.
    rewrite (pam_msg_invoked _ _ _ _ _ _ _ _ _ Hcap Hcall) in Hrun.
    destruct (release_response resp _) as [[u st'']|] eqn:Hrel; [|done].
    injection Hrun as -> _. exists f, ad, resp, h1.
    split; [done|]. split; [done|]. by apply release_inv in Hrel.
  - left. rewrite (pam_msg_early_exit _ _ _ _ Hcap) in Hrun.
    by injection Hrun as <- <-.
Qed.

End Inversion.

Section Further.
Context {pam : PamAppl}.

(** X2. The footprint of a run on the heap: the bridge allocates nothing
    and changes no block that stays allocated (the final heap is a sub-map
    of the heap the capability left); every block other than the envelope
    and its secret buffer is exactly as the capability left it; and a
    non-null envelope and a non-null secret buffer are gone. *)
Theorem pam_msg_heap_footprint (pamh : pam_handle) (f : conv_fn)
    (ad style text : Z) (st st' : state) (rc rc0 resp : Z) (h1 : gmap Z cell) :
  capability pamh = Some (f, ad) ->
  f 1 [{| msg_style := style; msg := text |}] ad (heap st) = (rc, resp, h1) ->
  pam_msg pamh style text st = Some (rc0, st') ->
  heap st' ⊆ h1
  /\ (forall p, aliases h1 resp p = false -> heap st' !! p = h1 !! p)
  /\ (resp <> NULL ->
      forall p, p <> NULL -> aliases h1 resp p = true -> heap st' !! p = None).
Proof.
  intros Hcap Hcall Hrun.
  assert (response_ok h1 resp = true) as Hok.
  { rewrite (pam_msg_invoked _ _ _ _ _ _ _ _ _ Hcap Hcall) in Hrun.
    destruct (release_response resp _) as [[u st'']|] eqn:Hrel; [|done].
    by apply release_inv in Hrel. }
  unfold aliases.
  apply response_ok_cases in Hok
    as [->|[[Hr [rc' Hresp]]|[Hr (s & rc' & bs & n & Hs & Hresp & Hsec & Hlen)]]].
  - rewrite (pam_msg_path_null _ _ _ _ _ _ _ _ _ Hcap Hcall eq_refl) in Hrun.
    injection Hrun as _ <-. simpl. by repeat split.
  - rewrite (pam_msg_path_null_secret _ _ _ _ _ _ _ _ _ Hcap Hcall rc' Hr Hresp)
      in Hrun.
    injection Hrun as _ <-. simpl. rewrite Hresp.
    split; [apply delete_subseteq|]. split.
    + intros p [Hp _]%orb_false_elim. apply Z.eqb_neq in Hp.
      by rewrite lookup_delete_ne.
    + intros _ p Hp [Hal|Hal]%orb_true_iff; apply Z.eqb_eq in Hal.
      * subst p. apply lookup_delete_eq.
      * by subst p.
  - assert (s <> resp) as Hne by (intros ->; congruence).
    rewrite (pam_msg_path_secret _ _ _ _ _ _ _ _ _ Hcap Hcall
               s rc' bs n Hr Hs Hresp Hsec Hlen) in Hrun.
    injection Hrun as _ <-. simpl. rewrite Hresp.
    split; [etrans; apply delete_subseteq|]. split.
    + intros p [Hp Hp']%orb_false_elim.
      apply Z.eqb_neq in Hp. apply Z.eqb_neq in Hp'.
      by rewrite !lookup_delete_ne.
    + intros _ p Hp [Hal|Hal]%orb_true_iff; apply Z.eqb_eq in Hal; subst p.
      * apply lookup_delete_eq.
      * rewrite lookup_delete_ne by done. apply lookup_delete_eq.
Qed.


(** X5. The bridge ignores the envelope's [resp_retcode]: two runs whose
    capability results differ only in that member return the same code and
    leave the same heap. *)
Theorem pam_msg_ignores_resp_retcode (pamh1 pamh2 : pam_handle)
    (f1 f2 : conv_fn) (ad style text : Z) (st : state) (rc resp s rc1 rc2 : Z)
    (h1 : gmap Z cell) :
  capability pamh1 = Some (f1, ad) ->
  capability pamh2 = Some (f2, ad) ->
  f1 1 [{| msg_style := style; msg := text |}] ad (heap st) = (rc, resp, h1) ->
  f2 1 [{| msg_style := style; msg := text |}] ad (heap st)
  = (rc, resp, <[resp := Response s rc2]> h1) ->
  resp <> NULL ->
  h1 !! resp = Some (Response s rc1) ->
  response_ok h1 resp = true ->
  exists st1 st2,
    pam_msg pamh1 style text st = Some (rc, st1)
    /\ pam_msg pamh2 style text st = Some (rc, st2)
    /\ heap st1 = heap st2.
Proof.
  intros Hcap1 Hcap2 Hcall1 Hcall2 Hnn Hresp1 Hok.
  apply response_ok_cases in Hok
    as [->|[[Hr [rc' Hresp]]|[Hr (s' & rc' & bs & n & Hs & Hresp & Hsec & Hlen)]]];
    [done| |].
  - rewrite Hresp1 in Hresp. injection Hresp as -> ->.
    do 2 eexists. split; [by eapply pam_msg_path_null_secret|].
    split.
    + eapply pam_msg_path_null_secret; [done|done|done|].
      apply lookup_insert_eq.
    + simpl. by rewrite delete_insert_eq.
  - rewrite Hresp1 in Hresp. injection Hresp as <- <-.
    assert (s <> resp) as Hne by (intros ->; congruence).
    do 2 eexists. split; [by eapply pam_msg_path_secret|].
    split.
    + eapply pam_msg_path_secret; [done|done|done|done| | |done].
      * apply lookup_insert_eq.
      * by rewrite lookup_insert_ne.
    + simpl. rewrite delete_insert_ne by done. by rewrite delete_insert_eq.
Qed.

(** X6. The return value does not tell whether the capability was called:
    a run that calls a capability which answers [PAM_CONV_ERR] returns the
    same value as a run on a handle without a capability, which calls
    nothing. *)
Theorem pam_msg_conv_err_ambiguous (pamh1 pamh2 : pam_handle) (f : conv_fn)
    (ad style text : Z) (st : state) (resp : Z) (h1 : gmap Z cell) :
  capability pamh1 = None ->
  capability pamh2 = Some (f, ad) ->
  f 1 [{| msg_style := style; msg := text |}] ad (heap st)
  = (PAM_CONV_ERR, resp, h1) ->
  response_ok h1 resp = true ->
  exists r st1 st2,
    pam_msg pamh1 style text st = Some (r, st1)
    /\ pam_msg pamh2 style text st = Some (r, st2)
    /\ List.filter is_conv (trace st1) = List.filter is_conv (trace st)
    /\ List.filter is_conv (trace st2)
       = List.filter is_conv (trace st)
         ++ [EvConv 1 [{| msg_style := style; msg := text |}] ad].
Proof.
  intros Hcap1 Hcap2 Hcall Hok.
  destruct (pam_msg_dispatch pamh2 f ad style text st _ resp h1 Hcap2 Hcall Hok)
    as (st2 & evs & Hrun2 & Htr & Hconv).
  exists PAM_CONV_ERR, st, st2.
  split; [by apply pam_msg_early_exit|]. split; [done|]. split; [done|].
  by rewrite Htr, List.filter_app, Hconv.
Qed.

(** X7. Two calls in a row make two separate calls of the capability, in
    order, each with its own one-message batch; the second call starts from
    the heap the first run left, and the pair returns the second code. *)
Theorem pam_msg_twice (pamh : pam_handle) (f : conv_fn)
    (ad style1 text1 style2 text2 : Z) (st st1 : state)
    (rc1 rc2 resp2 : Z) (h2 : gmap Z cell) :
  capability pamh = Some (f, ad) ->
  pam_msg pamh style1 text1 st = Some (rc1, st1) ->
  f 1 [{| msg_style := style2; msg := text2 |}] ad (heap st1) = (rc2, resp2, h2) ->
  response_ok h2 resp2 = true ->
  exists st2 evs,
    bind (pam_msg pamh style1 text1) (fun _ => pam_msg pamh style2 text2) st
    = Some (rc2, st2)
    /\ trace st2 = trace st ++ evs
    /\ List.filter is_conv evs
       = [EvConv 1 [{| msg_style := style1; msg := text1 |}] ad;
          EvConv 1 [{| msg_style := style2; msg := text2 |}] ad].
Proof.
  intros Hcap Hrun1 Hcall2 Hok2.
  destruct (pam_msg_success_inv _ _ _ _ _ _ Hrun1)
    as [(Hnone & _)|(f' & ad' & resp1 & h1 & Hcap' & Hcall1 & Hok1)];
    [congruence|].
  rewrite Hcap in Hcap'. injection Hcap' as <- <-.
  destruct (pam_msg_dispatch pamh f ad style1 text1 st rc1 resp1 h1
              Hcap Hcall1 Hok1) as (st1' & evs1 & Hrun1' & Htr1 & Hconv1).
  rewrite Hrun1 in Hrun1'. injection Hrun1' as <-.
  destruct (pam_msg_dispatch pamh f ad style2 text2 st1 rc2 resp2 h2
              Hcap Hcall2 Hok2) as (st2 & evs2 & Hrun2 & Htr2 & Hconv2).
  exists st2, (evs1 ++ evs2). unfold bind. rewrite Hrun1.
  split; [done|]. split.
  - by rewrite Htr2, Htr1, app_assoc.
  - by rewrite List.filter_app, Hconv1, Hconv2.
Qed.

End Further.

Section FurtherWitnesses.
Import Scenario.

Local Abbreviation run := (pam_msg (pam := linux_pam)) (only parsing).

Lemma pam_msg_heap_footprint_witness :
  exists st',
    run (handle_of (answers 0 code)) 2 text_ptr init = Some (0, st')
    /\ heap st' ⊆ answered code
    /\ heap st' !! text_ptr = answered code !! text_ptr
    /\ heap st' !! secret_ptr = None
    /\ heap st' !! envelope_ptr = None.
Proof.
  eexists. split; [vm_compute; reflexivity|].
  destruct (pam_msg_heap_footprint (pam := linux_pam)
              (handle_of (answers 0 code)) (answers 0 code) 7 2 text_ptr init _
              0 0 envelope_ptr (answered code) eq_refl eq_refl
              ltac:(vm_compute; reflexivity)) as (Hsub & Hkeep & Hgone).
  split; [exact Hsub|]. split; [apply Hkeep; reflexivity|].
  split; apply Hgone; (discriminate || reflexivity).
Defined.


Lemma pam_msg_ignores_resp_retcode_witness :
  exists st1 st2,
    run (handle_of (answers 0 code)) 2 text_ptr init = Some (0, st1)
    /\ run (handle_of (answers_retcode 0 5 code)) 2 text_ptr init = Some (0, st2)
    /\ heap st1 = heap st2.
Proof.
  apply (pam_msg_ignores_resp_retcode (pam := linux_pam)
           (handle_of (answers 0 code)) (handle_of (answers_retcode 0 5 code))
           (answers 0 code) (answers_retcode 0 5 code) 7 2 text_ptr init
           0 envelope_ptr secret_ptr 0 5 (answered code));
    [reflexivity | reflexivity | reflexivity | vm_compute; reflexivity
    | discriminate | reflexivity | reflexivity].
Defined.

Lemma pam_msg_conv_err_ambiguous_witness :
  exists r st1 st2,
    run no_item 2 text_ptr init = Some (r, st1)
    /\ run (handle_of (answers 19 code)) 2 text_ptr init = Some (r, st2)
    /\ List.filter is_conv (trace st1) = List.filter is_conv (trace init)
    /\ List.filter is_conv (trace st2)
       = List.filter is_conv (trace init)
         ++ [EvConv 1 [{| msg_style := 2; msg := text_ptr |}] 7].
Proof.
  apply (pam_msg_conv_err_ambiguous (pam := linux_pam)
           no_item (handle_of (answers 19 code)) (answers 19 code)
           7 2 text_ptr init envelope_ptr (answered code));
    reflexivity.
Defined.

(** A prompt followed by an information message. *)
Lemma pam_msg_twice_witness :
  exists st2 evs,
    bind (run (handle_of (answers 0 code)) 2 text_ptr)
         (fun _ => run (handle_of (answers 0 code)) 4 text_ptr) init
    = Some (0, st2)
    /\ trace st2 = trace init ++ evs
    /\ List.filter is_conv evs
       = [EvConv 1 [{| msg_style := 2; msg := text_ptr |}] 7;
          EvConv 1 [{| msg_style := 4; msg := text_ptr |}] 7].
Proof.
  apply (pam_msg_twice (pam := linux_pam)
           (handle_of (answers 0 code)) (answers 0 code) 7 2 text_ptr 4 text_ptr
           init
           {| heap := heap init;
              trace := [EvConv 1 [{| msg_style := 2; msg := text_ptr |}] 7;
                        EvMemset secret_ptr x00 6;
                        EvFree secret_ptr (Chars (fill x00 6 code));
                        EvFree envelope_ptr (Response secret_ptr 0)] |}
           0 0 envelope_ptr (answered code));
    [reflexivity | vm_compute; reflexivity | reflexivity | reflexivity].
Defined.

End FurtherWitnesses.
